(** * Affine quantization of numeric arrays: [QuantizedArray]

    A shallow embedding of [src/concrete/ml/quantization/quantized_array.py]
    and the properties of its scale / zero-point derivation, forward
    quantization and dequantization.

    Number model.  The Python code computes on [numpy.float64] values and on
    Python / numpy integers.  Here a float is an exact rational ([Q]) and an
    integer is an unbounded [Z]: rounding of [/], [*], [+] to binary64,
    infinities, NaN and overflow of the numpy integer type are outside the
    model.  Everything stated below about numeric values is therefore a
    statement about the arithmetic the code writes down, evaluated exactly.
    [n_bits] is a Python [int]; the model follows the code for
    [0 <= n_bits] (for a negative exponent Python's [**] leaves the
    integers), and the theorems about the derivation ask for [1 <= n_bits],
    which keeps the divisor [2 ** n_bits - 1] away from zero.

    Array model.  A [numpy.ndarray] is a mutable object that the caller may
    keep a reference to, so arrays live in a store and are named by
    locations; [deepcopy] allocates.  An array of any shape is modelled by
    the flat list of its elements: every operation used here is either
    element-wise or a reduction over all elements. *)

From Stdlib Require Import ZArith QArith Qround Qabs List Bool Lia Lqa.
Import ListNotations.

Open Scope Q_scope.

(** ** The numpy primitives the class uses *)

Module Numpy.

(** An array carries its element type, as a numpy array carries its dtype. *)
Inductive ndarray : Type :=
| FloatArray (data : list Q)
| IntArray (data : list Z).

(** The elements as floats: what numpy's type promotion yields when an
    array takes part in a true division or in a product with a float. *)
Definition as_float (a : ndarray) : list Q :=
  match a with
  | FloatArray data => data
  | IntArray data => map inject_Z data
  end.

Definition Qlt_bool (x y : Q) : bool := negb (Qle_bool y x).

Definition maximum (x y : Q) : Q := if Qle_bool x y then y else x.
Definition minimum (x y : Q) : Q := if Qle_bool y x then y else x.

(** [numpy.rint] and [numpy.round] with no decimals: the nearest integer,
    a tie going to the even neighbour.  numpy returns the integer as a
    float; the model keeps it as the integer it is. *)
Definition rint (x : Q) : Z :=
  let f := Qfloor x in
  match Qcompare (x - inject_Z f) (1 # 2) with
  | Lt => f
  | Gt => (f + 1)%Z
  | Eq => if Z.even f then f else (f + 1)%Z
  end.

Definition round : Q -> Z := rint.

(** [x.clip(a_min, a_max)], i.e. [minimum(a_max, maximum(x, a_min))]. *)
Definition clip (x a_min a_max : Z) : Z := Z.min a_max (Z.max x a_min).

(** [.astype(int)] on a value that is already a whole number. *)
Definition astype_int (x : Z) : Z := x.

Definition abs : Q -> Q := Qabs.

End Numpy.

Import Numpy.

(** ** Store, exceptions and the monad of the methods *)

Definition loc := nat.
Definition heap := list ndarray.

(** [InvalidArgument] is what the failed parameter check of the constructor
    raises; [ValueError] is numpy's reduction over an empty array;
    [AssertionError] is a failed [assert]; [AttributeError] is the read of an
    attribute that was never assigned.  [DanglingReference] cannot happen in
    Python (a reference always names an object): it is the model's answer to
    a location that the store does not hold. *)
Inductive exn : Type :=
| InvalidArgument
| AssertionError
| ValueError
| AttributeError
| DanglingReference.

Inductive result (A : Type) : Type :=
| Ok (a : A)
| Raise (e : exn).
Arguments Ok {A} a.
Arguments Raise {A} e.

Definition M (A : Type) : Type := heap -> result (A * heap).

Definition ret {A} (a : A) : M A := fun h => Ok (a, h).

Definition raise {A} (e : exn) : M A := fun _ => Raise e.

Definition bind {A B} (m : M A) (k : A -> M B) : M B :=
  fun h => match m h with
           | Ok (a, h') => k a h'
           | Raise e => Raise e
           end.

Declare Scope py_scope.
Delimit Scope py_scope with py.
Notation "x <- m ;; k" := (bind m (fun x => k))
  (at level 61, m at next level, right associativity) : py_scope.
Notation "' pat <- m ;; k" := (bind m (fun x => match x with pat => k end))
  (at level 61, pat pattern, m at next level, right associativity) : py_scope.
Notation "m ;; k" := (bind m (fun _ => k))
  (at level 61, right associativity) : py_scope.
Open Scope py_scope.

Definition load (l : loc) : M ndarray :=
  fun h => match nth_error h l with
           | Some a => Ok (a, h)
           | None => Raise DanglingReference
           end.

(** A new array gets the next free location; nothing already stored moves. *)
Definition alloc (a : ndarray) : M loc :=
  fun h => Ok (length h, h ++ [a]).

(** [copy.deepcopy] of an array: a new object with the same elements. *)
Definition deepcopy (l : loc) : M loc :=
  a <- load l ;; alloc a.

(** Reading [self.x]. *)
Definition getattr {A} (x : option A) : M A :=
  match x with
  | Some a => ret a
  | None => raise AttributeError
  end.

(** The statement [assert c]. *)
Definition assert (c : bool) : M unit :=
  if c then ret tt else raise AssertionError.

(** Modelled from the spec: [assert_true] of [..common.debugging], which is
    imported by the source file but is not part of it.  The constructor
    calls it with the condition "scale and zero_point are both given"; the
    spec says the construction then fails with [InvalidArgument]. *)
Definition assert_true (condition : bool) : M unit :=
  if condition then ret tt else raise InvalidArgument.

(** [numpy.max] and [numpy.min] over all elements; numpy raises
    [ValueError] on an array without elements. *)
Definition numpy_max (a : ndarray) : M Q :=
  match as_float a with
  | [] => raise ValueError
  | x :: xs => ret (fold_left maximum xs x)
  end.

Definition numpy_min (a : ndarray) : M Q :=
  match as_float a with
  | [] => raise ValueError
  | x :: xs => ret (fold_left minimum xs x)
  end.

(** ** The class *)

(** The attributes of an instance.  [offset], [n_bits] and [is_signed] are
    assigned first thing in [__init__]; the other four are assigned later in
    the constructor, so an instance under construction has them unset. *)
Record QuantizedArray : Type := mkQuantizedArray {
  offset : Z;
  n_bits : Z;
  is_signed : bool;
  values : option loc;
  scale : option Q;
  zero_point : option Z;
  qvalues : option loc
}.

Definition set_offset (self : QuantizedArray) (x : Z) : QuantizedArray :=
  mkQuantizedArray x (n_bits self) (is_signed self) (values self)
                   (scale self) (zero_point self) (qvalues self).

Definition set_values (self : QuantizedArray) (x : loc) : QuantizedArray :=
  mkQuantizedArray (offset self) (n_bits self) (is_signed self) (Some x)
                   (scale self) (zero_point self) (qvalues self).

Definition set_scale (self : QuantizedArray) (x : Q) : QuantizedArray :=
  mkQuantizedArray (offset self) (n_bits self) (is_signed self) (values self)
                   (Some x) (zero_point self) (qvalues self).

Definition set_zero_point (self : QuantizedArray) (x : Z) : QuantizedArray :=
  mkQuantizedArray (offset self) (n_bits self) (is_signed self) (values self)
                   (scale self) (Some x) (qvalues self).

Definition set_qvalues (self : QuantizedArray) (x : loc) : QuantizedArray :=
  mkQuantizedArray (offset self) (n_bits self) (is_signed self) (values self)
                   (scale self) (zero_point self) (Some x).

Definition STABILITY_CONST : Q := 1 # 1000000.

(** One element of
    [numpy.rint(values / scale + zero_point).clip(-offset, 2 ** n_bits - 1 - offset).astype(int)]. *)
Definition quantize_element (n_bits offset : Z) (scale : Q) (zero_point : Z) (x : Q) : Z :=
  astype_int (clip (rint (x / scale + inject_Z zero_point))
                   (- offset) (2 ^ n_bits - 1 - offset)).

(** One element of [scale * (qvalues + -(zero_point))]. *)
Definition dequantize_element (scale : Q) (zero_point : Z) (q : Q) : Q :=
  scale * (q + - inject_Z zero_point).

Definition compute_quantization_parameters (self : QuantizedArray)
  : M (QuantizedArray * (Q * Z * loc)) :=
  v <- getattr (values self) ;;
  a <- load v ;;
  rmax <- numpy_max a ;;
  rmin <- numpy_min a ;;
  let '(self, scale, zero_point) :=
    if Qlt_bool (rmax - rmin) STABILITY_CONST then
      let self := set_offset self 0 in
      if Qlt_bool (abs rmax) STABILITY_CONST then
        (self, 1, round (- rmin))
      else
        (self, rmax / inject_Z (2 ^ n_bits self - 1), 0%Z)
    else
      (self,
       if negb (Qeq_bool rmax rmin)
       then (rmax - rmin) / inject_Z (2 ^ n_bits self - 1) else 1,
       astype_int
         (round ((rmax * inject_Z (- offset self)
                  - rmin * inject_Z (2 ^ n_bits self - 1 - offset self))
                 / (rmax - rmin)))) in
  q <- alloc (IntArray (map (quantize_element (n_bits self) (offset self)
                                               scale zero_point)
                            (as_float a))) ;;
  ret (self, (scale, zero_point, q)).

Definition quant (self : QuantizedArray) : M (QuantizedArray * loc) :=
  v <- getattr (values self) ;;
  a <- load v ;;
  s <- getattr (scale self) ;;
  z <- getattr (zero_point self) ;;
  q <- alloc (IntArray (map (quantize_element (n_bits self) (offset self) s z)
                            (as_float a))) ;;
  ret (set_qvalues self q, q).

Definition dequant (self : QuantizedArray) : M (QuantizedArray * loc) :=
  s <- getattr (scale self) ;;
  q <- getattr (qvalues self) ;;
  a <- load q ;;
  z <- getattr (zero_point self) ;;
  v <- alloc (FloatArray (map (dequantize_element s z) (as_float a))) ;;
  ret (set_values self v, v).

Definition update_values (self : QuantizedArray) (values : loc)
  : M (QuantizedArray * loc) :=
  v <- deepcopy values ;;
  let self := set_values self v in
  '(self, _) <- quant self ;;
  q <- getattr (qvalues self) ;;
  ret (self, q).

Definition update_qvalues (self : QuantizedArray) (qvalues : loc)
  : M (QuantizedArray * loc) :=
  q <- deepcopy qvalues ;;
  let self := set_qvalues self q in
  '(self, _) <- dequant self ;;
  v <- getattr (values self) ;;
  ret (self, v).

(** The accessor [__call__]. *)
Definition __call__ (self : QuantizedArray) : M loc :=
  getattr (qvalues self).

Definition is_not_None {A} (x : option A) : bool :=
  match x with Some _ => true | None => false end.

(** The constructor.  [scale] and [zero_point] are the optional arguments
    ([None] when the caller leaves them out). *)
Definition __init__ (n_bits : Z) (values : loc) (is_signed value_is_float : bool)
                    (scale : option Q) (zero_point : option Z)
  : M QuantizedArray :=
  let self := mkQuantizedArray 0 n_bits is_signed None None None None in
  let self := if is_signed then set_offset self (2 ^ (n_bits - 1)) else self in
  if value_is_float then
    v <- deepcopy values ;;
    let self := set_values self v in
    '(self, (s, z, q)) <- compute_quantization_parameters self ;;
    ret (set_qvalues (set_zero_point (set_scale self s) z) q)
  else
    assert_true (is_not_None scale && is_not_None zero_point) ;;
    s <- (assert (is_not_None scale) ;; getattr scale) ;;
    z <- (assert (is_not_None zero_point) ;; getattr zero_point) ;;
    let self := set_scale self s in
    let self := set_zero_point self z in
    q <- deepcopy values ;;
    let self := set_qvalues self q in
    '(self, _) <- dequant self ;;
    ret self.

(** The array an attribute refers to, if the attribute is set. *)
Definition contents (h : heap) (l : option loc) : option ndarray :=
  match l with
  | Some l => nth_error h l
  | None => None
  end.

(** A call of one of the four methods that act on a constructed instance. *)
Inductive method : Type :=
| Quant
| Dequant
| Update_values (values : loc)
| Update_qvalues (qvalues : loc).

Definition call (m : method) (self : QuantizedArray) : M (QuantizedArray * loc) :=
  match m with
  | Quant => quant self
  | Dequant => dequant self
  | Update_values l => update_values self l
  | Update_qvalues l => update_qvalues self l
  end.

(** ** Predicates used in the statements *)

(** Every attribute is assigned and the two arrays are in the store: the
    state of an instance once its constructor has returned. *)
Definition constructed (self : QuantizedArray) (h : heap) : Prop :=
  exists v q s z av aq,
    values self = Some v /\ qvalues self = Some q /\
    scale self = Some s /\ zero_point self = Some z /\
    nth_error h v = Some av /\ nth_error h q = Some aq.

Definition code_max (self : QuantizedArray) : Z := 2 ^ n_bits self - 1 - offset self.



(** The extremes of an array, as [compute_quantization_parameters] reads them. *)
Definition extremes (a : ndarray) (rmax rmin : Q) : Prop :=
  forall h, numpy_max a h = Ok (rmax, h) /\ numpy_min a h = Ok (rmin, h).

(** The largest value of numpy's default integer, 64 bits wide, which is the
    type [.astype(int)] casts to. *)
Definition int64_max : Z := 2 ^ 63 - 1.

(** The value [__init__] gives [self.offset] before anything else. *)
Definition initial_offset (n_bits : Z) (is_signed : bool) : Z :=
  if is_signed then 2 ^ (n_bits - 1) else 0.

(** The parameters [compute_quantization_parameters] settles on, as a
    function of the extremes: the new [offset], [scale] and [zero_point].
    Lemma [compute_quantization_parameters_run] below shows that the method
    returns exactly these. *)
Definition derived_parameters (n off : Z) (rmax rmin : Q) : Z * Q * Z :=
  if Qlt_bool (rmax - rmin) STABILITY_CONST then
    if Qlt_bool (abs rmax) STABILITY_CONST
    then (0%Z, 1, round (- rmin))
    else (0%Z, rmax / inject_Z (2 ^ n - 1), 0%Z)
  else
    (off,
     if negb (Qeq_bool rmax rmin) then (rmax - rmin) / inject_Z (2 ^ n - 1) else 1,
     astype_int (round ((rmax * inject_Z (- off) - rmin * inject_Z (2 ^ n - 1 - off))
                        / (rmax - rmin)))).

(** * Proofs *)

(** ** Arithmetic of the primitives *)



Lemma inject_Z_succ z : inject_Z (z + 1) == inject_Z z + 1.
Proof. rewrite inject_Z_plus. reflexivity. Qed.

Lemma rint_bounds x :
  x - (1 # 2) <= inject_Z (rint x) /\ inject_Z (rint x) <= x + (1 # 2).
Proof.
  pose proof (Qfloor_le x) as Hlo.
  pose proof (Qlt_floor x) as Hhi.
  rewrite inject_Z_succ in Hhi.
  unfold rint.
  destruct (Qcompare_spec (x - inject_Z (Qfloor x)) (1 # 2)) as [E|L|G].
  - destruct (Z.even (Qfloor x)); rewrite ?inject_Z_succ; lra.
  - lra.
  - rewrite inject_Z_succ. lra.
Qed.

Lemma rint_error x : Qabs (inject_Z (rint x) - x) <= 1 # 2.
Proof.
  apply Qabs_Qle_condition. destruct (rint_bounds x). split; lra.
Qed.








(** ** The store *)

Lemma nth_error_alloc_old (h : heap) (a x : ndarray) (l : loc) :
  nth_error h l = Some x -> nth_error (h ++ [a]) l = Some x.
Proof.
  intro H. rewrite nth_error_app1; [exact H|].
  apply nth_error_Some. congruence.
Qed.

Lemma nth_error_alloc_new (h : heap) (a : ndarray) :
  nth_error (h ++ [a]) (length h) = Some a.
Proof.
  rewrite nth_error_app2 by lia. rewrite Nat.sub_diag. reflexivity.
Qed.

Lemma nth_error_fresh (h : heap) : nth_error h (length h) = None.
Proof. apply nth_error_None. lia. Qed.

Lemma stored_not_fresh (h : heap) (l : loc) (a : ndarray) :
  nth_error h l = Some a -> l <> length h.
Proof.
  intros H E. subst l. rewrite nth_error_fresh in H. discriminate.
Qed.

Lemma deepcopy_run (h : heap) (l : loc) (a : ndarray) :
  nth_error h l = Some a -> deepcopy l h = Ok (length h, h ++ [a]).
Proof.
  intro H. unfold deepcopy, bind, load, alloc. rewrite H. reflexivity.
Qed.

(** ** What a successful run of each method is *)

(** Splits the hypothesis [H], the successful run of a method, along the
    attribute reads and loads the method performs. *)
Ltac run_inv H :=
  unfold bind, getattr, load, alloc, ret, raise in H;
  repeat match type of H with
         | context [match ?x with _ => _ end] =>
             tryif (match x with context [match _ with _ => _ end] => idtac end)
             then fail
             else (let E := fresh "E" in
                   destruct x eqn:E; cbv beta iota in H; try discriminate H)
         end.

Lemma quant_run self h v a s z :
  values self = Some v -> nth_error h v = Some a ->
  scale self = Some s -> zero_point self = Some z ->
  quant self h =
  Ok (set_qvalues self (length h), length h,
      h ++ [IntArray (map (quantize_element (n_bits self) (offset self) s z)
                          (as_float a))]).
Proof.
  intros Hv Ha Hs Hz. unfold quant, bind, getattr, load, alloc, ret.
  rewrite Hv, Hs, Hz. cbv beta iota. rewrite Ha. reflexivity.
Qed.

Lemma quant_inv self h r :
  quant self h = Ok r ->
  exists v a s z,
    values self = Some v /\ nth_error h v = Some a /\
    scale self = Some s /\ zero_point self = Some z.
Proof.
  intro H. unfold quant in H. run_inv H. eauto 10.
Qed.

Lemma dequant_run self h q a s z :
  qvalues self = Some q -> nth_error h q = Some a ->
  scale self = Some s -> zero_point self = Some z ->
  dequant self h =
  Ok (set_values self (length h), length h,
      h ++ [FloatArray (map (dequantize_element s z) (as_float a))]).
Proof.
  intros Hq Ha Hs Hz. unfold dequant, bind, getattr, load, alloc, ret.
  rewrite Hs, Hq, Hz. cbv beta iota. rewrite Ha. reflexivity.
Qed.

Lemma dequant_inv self h r :
  dequant self h = Ok r ->
  exists q a s z,
    qvalues self = Some q /\ nth_error h q = Some a /\
    scale self = Some s /\ zero_point self = Some z.
Proof.
  intro H. unfold dequant in H. run_inv H. eauto 10.
Qed.

Lemma update_values_run self h l a s z :
  nth_error h l = Some a ->
  scale self = Some s -> zero_point self = Some z ->
  update_values self l h =
  Ok (set_qvalues (set_values self (length h)) (length (h ++ [a])),
      length (h ++ [a]),
      (h ++ [a]) ++
      [IntArray (map (quantize_element (n_bits self) (offset self) s z)
                     (as_float a))]).
Proof.
  intros Ha Hs Hz. unfold update_values.
  unfold bind at 1. rewrite (deepcopy_run _ _ _ Ha).
  unfold bind at 1.
  rewrite (quant_run (set_values self (length h)) (h ++ [a]) (length h) a s z);
    [reflexivity | reflexivity | apply nth_error_alloc_new | exact Hs | exact Hz].
Qed.

Lemma update_values_inv self h l r :
  update_values self l h = Ok r ->
  exists a s z,
    nth_error h l = Some a /\ scale self = Some s /\ zero_point self = Some z.
Proof.
  intro H. unfold update_values, deepcopy, quant in H. run_inv H.
  simpl in *. eauto 10.
Qed.

Lemma update_qvalues_run self h l a s z :
  nth_error h l = Some a ->
  scale self = Some s -> zero_point self = Some z ->
  update_qvalues self l h =
  Ok (set_values (set_qvalues self (length h)) (length (h ++ [a])),
      length (h ++ [a]),
      (h ++ [a]) ++ [FloatArray (map (dequantize_element s z) (as_float a))]).
Proof.
  intros Ha Hs Hz. unfold update_qvalues.
  unfold bind at 1. rewrite (deepcopy_run _ _ _ Ha).
  unfold bind at 1.
  rewrite (dequant_run (set_qvalues self (length h)) (h ++ [a]) (length h) a s z);
    [reflexivity | reflexivity | apply nth_error_alloc_new | exact Hs | exact Hz].
Qed.

Lemma update_qvalues_inv self h l r :
  update_qvalues self l h = Ok r ->
  exists a s z,
    nth_error h l = Some a /\ scale self = Some s /\ zero_point self = Some z.
Proof.
  intro H. unfold update_qvalues, deepcopy, dequant in H. run_inv H.
  simpl in *. eauto 10.
Qed.

Lemma extremes_cons a x xs :
  as_float a = x :: xs ->
  extremes a (fold_left maximum xs x) (fold_left minimum xs x).
Proof.
  intros E h. unfold numpy_max, numpy_min. rewrite E. split; reflexivity.
Qed.


Lemma nonempty_extremes a :
  as_float a <> [] -> exists rmax rmin, extremes a rmax rmin.
Proof.
  intro H. destruct (as_float a) as [|x xs] eqn:E; [congruence|].
  eauto using extremes_cons.
Qed.

Lemma compute_quantization_parameters_run self h v a rmax rmin off' s z :
  values self = Some v -> nth_error h v = Some a ->
  extremes a rmax rmin ->
  derived_parameters (n_bits self) (offset self) rmax rmin = (off', s, z) ->
  compute_quantization_parameters self h =
  Ok (set_offset self off', (s, z, length h),
      h ++ [IntArray (map (quantize_element (n_bits self) off' s z) (as_float a))]).
Proof.
  intros Hv Ha Hext Hd. destruct (Hext h) as [Hmax Hmin].
  unfold compute_quantization_parameters, bind, getattr, load, ret.
  rewrite Hv. cbv beta iota. rewrite Ha, Hmax, Hmin.
  unfold derived_parameters in Hd. destruct self; simpl in *.
  destruct (Qlt_bool (rmax - rmin) STABILITY_CONST);
    [destruct (Qlt_bool (abs rmax) STABILITY_CONST)|];
    inversion Hd; subst; reflexivity.
Qed.

Lemma compute_quantization_parameters_inv self h r :
  compute_quantization_parameters self h = Ok r ->
  exists v a rmax rmin,
    values self = Some v /\ nth_error h v = Some a /\ extremes a rmax rmin.
Proof.
  intro H. unfold compute_quantization_parameters, numpy_max, numpy_min in H.
  unfold bind, getattr, load, ret, raise in H.
  destruct (values self) as [v|]; [|discriminate].
  destruct (nth_error h v) as [a|] eqn:Ha; [|discriminate].
  destruct (as_float a) as [|x xs] eqn:Ea; [discriminate|].
  exists v, a. do 2 eexists. eauto using extremes_cons.
Qed.

Lemma init_real_run n l sg sc zp h a rmax rmin off' s z :
  nth_error h l = Some a ->
  extremes a rmax rmin ->
  derived_parameters n (initial_offset n sg) rmax rmin = (off', s, z) ->
  __init__ n l sg true sc zp h =
  Ok (mkQuantizedArray off' n sg (Some (length h)) (Some s) (Some z)
                       (Some (length (h ++ [a]))),
      (h ++ [a]) ++ [IntArray (map (quantize_element n off' s z) (as_float a))]).
Proof.
  intros Ha Hext Hd. unfold __init__.
  unfold bind at 1. rewrite (deepcopy_run _ _ _ Ha).
  unfold bind at 1.
  erewrite compute_quantization_parameters_run;
    [ | reflexivity | apply nth_error_alloc_new | exact Hext | ].
  - destruct sg; reflexivity.
  - destruct sg; exact Hd.
Qed.

Lemma init_real_inv n l sg sc zp h r :
  __init__ n l sg true sc zp h = Ok r ->
  exists a rmax rmin, nth_error h l = Some a /\ extremes a rmax rmin.
Proof.
  intro H. unfold __init__ in H. unfold bind at 1 in H.
  destruct (nth_error h l) as [a|] eqn:Ha.
  - rewrite (deepcopy_run _ _ _ Ha) in H. unfold bind at 1 in H.
    match type of H with
    | context [compute_quantization_parameters ?s ?h'] =>
        destruct (compute_quantization_parameters s h') as [r'|e] eqn:E;
        [|discriminate]
    end.
    apply compute_quantization_parameters_inv in E.
    destruct E as (v & a' & rmax & rmin & Hv & Ha' & Hext).
    assert (v = length h) by (destruct sg; simpl in Hv; congruence). subst v.
    rewrite nth_error_alloc_new in Ha'. inversion Ha'; subst a'. eauto.
  - unfold deepcopy, bind, load in H. rewrite Ha in H. discriminate.
Qed.

Lemma init_quantized_run n l sg s z h a :
  nth_error h l = Some a ->
  __init__ n l sg false (Some s) (Some z) h =
  Ok (mkQuantizedArray (initial_offset n sg) n sg (Some (length (h ++ [a])))
                       (Some s) (Some z) (Some (length h)),
      (h ++ [a]) ++ [FloatArray (map (dequantize_element s z) (as_float a))]).
Proof.
  intro Ha. unfold __init__. simpl.
  unfold assert_true, assert, getattr. simpl.
  unfold bind at 1. unfold ret at 1.
  unfold bind at 1. unfold bind at 1. unfold ret at 1 2.
  unfold bind at 1. unfold bind at 1. unfold ret at 1 2.
  unfold bind at 1. rewrite (deepcopy_run _ _ _ Ha).
  unfold bind at 1.
  erewrite dequant_run;
    [ | reflexivity | apply nth_error_alloc_new | | ];
    destruct sg; reflexivity.
Qed.

Lemma init_quantized_missing n l sg sc zp h :
  sc = None \/ zp = None ->
  __init__ n l sg false sc zp h = Raise InvalidArgument.
Proof.
  intros [H|H]; subst; unfold __init__; [destruct zp | destruct sc]; reflexivity.
Qed.

(** ** Construction from pre-quantized values *)

(** C3.  With [value_is_float] false the constructor raises
    [InvalidArgument] as soon as [scale] or [zero_point] is missing, so no
    instance comes back.  With both given and the array [values] in the
    store, it returns an instance that keeps the two parameters, whose
    [qvalues] is a new array (a location the store did not hold before,
    hence another object than the caller's) with the caller's elements, the
    caller's array being left as it was, and whose [values] holds
    [scale * (q - zero_point)] for every code [q]. *)
Theorem init_from_quantized_values n l sg sc zp h :
  (sc = None \/ zp = None ->
   __init__ n l sg false sc zp h = Raise InvalidArgument) /\
  (forall s z a,
     sc = Some s -> zp = Some z -> nth_error h l = Some a ->
     exists self h' q v,
       __init__ n l sg false sc zp h = Ok (self, h') /\
       scale self = Some s /\ zero_point self = Some z /\
       qvalues self = Some q /\ values self = Some v /\
       nth_error h q = None /\ q <> l /\
       nth_error h' q = Some a /\ nth_error h' l = Some a /\
       nth_error h' v =
       Some (FloatArray (map (fun x => s * (x - inject_Z z)) (as_float a)))).
Proof.
  split.
  - apply init_quantized_missing.
  - intros s z a -> -> Ha.
    eexists _, _, _, _. split; [apply (init_quantized_run _ _ _ _ _ _ _ Ha)|].
    simpl. repeat split.
    + apply nth_error_fresh.
    + intro E. apply (stored_not_fresh _ _ _ Ha). congruence.
    + apply nth_error_alloc_old, nth_error_alloc_new.
    + apply nth_error_alloc_old, nth_error_alloc_old, Ha.
    + apply nth_error_alloc_new.
Qed.

Lemma init_from_quantized_values_witness :
  __init__ 8 0%nat false false None (Some 128%Z) [IntArray [0; 128; 255]%Z]
  = Raise InvalidArgument /\
  exists self h',
    __init__ 8 0%nat false false (Some (2 # 255)) (Some 128%Z)
             [IntArray [0; 128; 255]%Z] = Ok (self, h') /\
    scale self = Some (2 # 255).
Proof.
  split.
  - apply (proj1 (init_from_quantized_values
                    8 0%nat false None (Some 128%Z) [IntArray [0; 128; 255]%Z])).
    left. reflexivity.
  - destruct (proj2 (init_from_quantized_values
                       8 0%nat false (Some (2 # 255)) (Some 128%Z)
                       [IntArray [0; 128; 255]%Z])
                    (2 # 255) 128%Z (IntArray [0; 128; 255]%Z)
                    eq_refl eq_refl eq_refl)
      as (self & h' & q & v & H & Hs & _).
    exists self, h'. split; assumption.
Defined.

(** ** The three worked examples *)

(** C4.  From the real values [5.0, 5.0, 5.0] with 8 bits and
    [is_signed] true: the extremes are equal and not close to zero (the
    nonzero-constant case), the offset ends up 0, the scale is [5 / 255],
    the zero point is 0 and the codes are [255, 255, 255]. *)
Theorem degenerate_constant_array l h sc zp :
  nth_error h l = Some (FloatArray [5; 5; 5]) ->
  exists self h' rmax rmin s q,
    __init__ 8 l true true sc zp h = Ok (self, h') /\
    extremes (FloatArray [5; 5; 5]) rmax rmin /\
    rmax - rmin < STABILITY_CONST /\ ~ abs rmax < STABILITY_CONST /\
    offset self = 0%Z /\
    scale self = Some s /\ s == 5 / 255 /\
    zero_point self = Some 0%Z /\
    qvalues self = Some q /\
    nth_error h' q = Some (IntArray [255; 255; 255]%Z).
Proof.
  intro Ha.
  eexists _, _, _, _, _, _. split.
  { eapply init_real_run;
      [exact Ha | apply extremes_cons; reflexivity | vm_compute; reflexivity]. }
  simpl. repeat split; try reflexivity.
  - intro H. vm_compute in H. discriminate.
  - apply nth_error_alloc_new.
Qed.

Lemma degenerate_constant_array_witness :
  exists self h',
    __init__ 8 0%nat true true None None [FloatArray [5; 5; 5]] = Ok (self, h') /\
    offset self = 0%Z /\ zero_point self = Some 0%Z.
Proof.
  destruct (degenerate_constant_array 0%nat [FloatArray [5; 5; 5]] None None eq_refl)
    as (self & h' & rmax & rmin & s & q & H & _ & _ & _ & Ho & _ & _ & Hz & _).
  exists self, h'. repeat split; assumption.
Defined.

(** C5.  From the real values [0.0, 0.0] with 8 bits, signed or not: the
    extremes are equal and close to zero (the near-zero case), the scale is
    1, the zero point is [round (- rmin) = 0] and the codes are [0, 0]. *)
Theorem degenerate_zero_array l h sg sc zp :
  nth_error h l = Some (FloatArray [0; 0]) ->
  exists self h' rmax rmin q,
    __init__ 8 l sg true sc zp h = Ok (self, h') /\
    extremes (FloatArray [0; 0]) rmax rmin /\
    rmax - rmin < STABILITY_CONST /\ abs rmax < STABILITY_CONST /\
    scale self = Some 1 /\
    zero_point self = Some (round (- rmin)) /\ round (- rmin) = 0%Z /\
    qvalues self = Some q /\
    nth_error h' q = Some (IntArray [0; 0]%Z).
Proof.
  intro Ha.
  eexists _, _, _, _, _. split.
  { eapply init_real_run;
      [exact Ha | apply extremes_cons; reflexivity
      | destruct sg; vm_compute; reflexivity]. }
  simpl. repeat split; try reflexivity.
  apply nth_error_alloc_new.
Qed.

Lemma degenerate_zero_array_witness :
  exists self h',
    __init__ 8 0%nat false true None None [FloatArray [0; 0]] = Ok (self, h') /\
    scale self = Some 1.
Proof.
  destruct (degenerate_zero_array 0%nat [FloatArray [0; 0]] false None None eq_refl)
    as (self & h' & rmax & rmin & q & H & _ & _ & _ & Hs & _).
  exists self, h'. split; assumption.
Defined.

(** C6.  From the real values [-1.0, 0.0, 1.0] with 8 bits and [is_signed]
    false: the extremes are [1] and [-1], far apart (the general case), the
    offset is 0, the scale is [2 / 255], the zero point is the rounding of
    [(rmax * (- offset) - rmin * (2 ^ 8 - 1 - offset)) / (rmax - rmin)],
    which is [255 / 2] and rounds to 128, and the codes are [0, 128, 255]. *)
Theorem general_case_example l h sc zp :
  nth_error h l = Some (FloatArray [-1; 0; 1]) ->
  exists self h' rmax rmin s z q,
    __init__ 8 l false true sc zp h = Ok (self, h') /\
    extremes (FloatArray [-1; 0; 1]) rmax rmin /\ rmax == 1 /\ rmin == -1 /\
    ~ rmax - rmin < STABILITY_CONST /\
    offset self = 0%Z /\
    scale self = Some s /\ s == 2 / 255 /\
    zero_point self = Some z /\
    z = round ((rmax * inject_Z (- offset self)
                - rmin * inject_Z (2 ^ 8 - 1 - offset self)) / (rmax - rmin)) /\
    (rmax * inject_Z (- offset self)
     - rmin * inject_Z (2 ^ 8 - 1 - offset self)) / (rmax - rmin) == 255 / 2 /\
    z = 128%Z /\
    qvalues self = Some q /\
    nth_error h' q = Some (IntArray [0; 128; 255]%Z).
Proof.
  intro Ha.
  eexists _, _, _, _, _, _, _. split.
  { eapply init_real_run;
      [exact Ha | apply extremes_cons; reflexivity | vm_compute; reflexivity]. }
  simpl. repeat split; try reflexivity.
  - intro H. vm_compute in H. discriminate.
  - apply nth_error_alloc_new.
Qed.

Lemma general_case_example_witness :
  exists self h',
    __init__ 8 0%nat false true None None [FloatArray [-1; 0; 1]] = Ok (self, h') /\
    zero_point self = Some 128%Z.
Proof.
  destruct (general_case_example 0%nat [FloatArray [-1; 0; 1]] None None eq_refl)
    as (self & h' & rmax & rmin & s & z & q & H & _ & _ & _ & _ & _ & _ & _
        & Hz & _ & _ & Hz' & _).
  exists self, h'. split; [exact H | congruence].
Defined.

(** ** Constructed instances *)

(** What the constructor returns has every attribute set. *)
Lemma init_constructed n l sg vf sc zp h self h' :
  __init__ n l sg vf sc zp h = Ok (self, h') -> constructed self h'.
Proof.
  intro H. destruct vf.
  - destruct (init_real_inv _ _ _ _ _ _ _ H) as (a & rmax & rmin & Ha & Hext).
    destruct (derived_parameters n (initial_offset n sg) rmax rmin)
      as [[off' s] z] eqn:Hd.
    rewrite (init_real_run _ _ _ sc zp _ _ _ _ _ _ _ Ha Hext Hd) in H.
    inversion H; subst; clear H.
    eexists _, _, _, _, _, _. simpl. repeat split;
      [apply nth_error_alloc_old, nth_error_alloc_new | apply nth_error_alloc_new].
  - destruct sc as [s|]; [|rewrite init_quantized_missing in H by auto; discriminate].
    destruct zp as [z|]; [|rewrite init_quantized_missing in H by auto; discriminate].
    destruct (nth_error h l) as [a|] eqn:Ha.
    + rewrite (init_quantized_run _ _ _ _ _ _ _ Ha) in H.
      inversion H; subst; clear H.
      eexists _, _, _, _, _, _. simpl. repeat split;
        [apply nth_error_alloc_new | apply nth_error_alloc_old, nth_error_alloc_new].
    + exfalso. unfold __init__, assert_true, assert, getattr, deepcopy in H.
      simpl in H. unfold bind, ret, load in H. rewrite Ha in H. discriminate.
Qed.

(** On such an instance [quant] and [dequant] always return. *)
Lemma constructed_quant_runs self h :
  constructed self h -> exists r, quant self h = Ok r.
Proof.
  intros (v & q & s & z & av & aq & Hv & Hq & Hs & Hz & Hav & Haq).
  eexists. apply (quant_run _ _ _ _ _ _ Hv Hav Hs Hz).
Qed.

Lemma constructed_dequant_runs self h :
  constructed self h -> exists r, dequant self h = Ok r.
Proof.
  intros (v & q & s & z & av & aq & Hv & Hq & Hs & Hz & Hav & Haq).
  eexists. apply (dequant_run _ _ _ _ _ _ Hq Haq Hs Hz).
Qed.

(** ** Quantizing twice *)

(** C8.  When a call of [quant] has returned, a second call right after it
    returns too, and the array of codes it stores and returns has the same
    elements as the array the first call stored and returned. *)
Theorem quant_twice self h self1 q1 h1 :
  quant self h = Ok (self1, q1, h1) ->
  exists self2 q2 h2 a,
    quant self1 h1 = Ok (self2, q2, h2) /\
    qvalues self1 = Some q1 /\ nth_error h1 q1 = Some a /\
    qvalues self2 = Some q2 /\ nth_error h2 q2 = Some a.
Proof.
  intro H.
  destruct (quant_inv _ _ _ H) as (v & a & s & z & Hv & Ha & Hs & Hz).
  rewrite (quant_run _ _ _ _ _ _ Hv Ha Hs Hz) in H.
  inversion H; subst self1 q1 h1; clear H.
  eexists _, _, _, _. split.
  { apply (quant_run (set_qvalues self (length h)) _ v a s z);
      [exact Hv | apply nth_error_alloc_old, Ha | exact Hs | exact Hz]. }
  simpl. repeat split; apply nth_error_alloc_new.
Qed.

Lemma quant_twice_witness :
  let self := mkQuantizedArray 0 8 false (Some 0%nat) (Some (2 # 255))
                               (Some 128%Z) None in
  let h := [FloatArray [-1; 0; 1]] in
  exists self2 q2 h2 a,
    quant (set_qvalues self 1%nat) (h ++ [IntArray [0; 128; 255]%Z])
    = Ok (self2, q2, h2) /\
    nth_error h2 q2 = Some a.
Proof.
  intros self h.
  destruct (quant_twice self h (set_qvalues self 1%nat) 1%nat
                        (h ++ [IntArray [0; 128; 255]%Z]) eq_refl)
    as (self2 & q2 & h2 & a & H & _ & _ & _ & Ha).
  exists self2, q2, h2, a. split; assumption.
Defined.

(** ** The methods keep the parameters *)

(** C9.  A call of [quant], [dequant], [update_values] or [update_qvalues]
    that returns leaves [scale], [zero_point], [n_bits], [is_signed] and
    [offset] as they were.  After [update_values] the codes are the new
    values quantized with the scale and zero point the instance already
    had; after [update_qvalues] the values are the new codes dequantized
    with them. *)
Theorem methods_keep_parameters m self h self' r h' :
  call m self h = Ok (self', r, h') ->
  (scale self' = scale self /\ zero_point self' = zero_point self /\
   n_bits self' = n_bits self /\ is_signed self' = is_signed self /\
   offset self' = offset self) /\
  (forall l, m = Update_values l ->
     exists a s z,
       nth_error h l = Some a /\
       scale self = Some s /\ zero_point self = Some z /\
       contents h' (qvalues self') =
       Some (IntArray (map (quantize_element (n_bits self) (offset self) s z)
                           (as_float a)))) /\
  (forall l, m = Update_qvalues l ->
     exists a s z,
       nth_error h l = Some a /\
       scale self = Some s /\ zero_point self = Some z /\
       contents h' (values self') =
       Some (FloatArray (map (dequantize_element s z) (as_float a)))).
Proof.
  intro H. destruct m as [| |l|l]; simpl in H.
  - destruct (quant_inv _ _ _ H) as (v & a & s & z & Hv & Ha & Hs & Hz).
    rewrite (quant_run _ _ _ _ _ _ Hv Ha Hs Hz) in H.
    inversion H; subst; clear H.
    repeat split; try reflexivity; intros; discriminate.
  - destruct (dequant_inv _ _ _ H) as (q & a & s & z & Hq & Ha & Hs & Hz).
    rewrite (dequant_run _ _ _ _ _ _ Hq Ha Hs Hz) in H.
    inversion H; subst; clear H.
    repeat split; try reflexivity; intros; discriminate.
  - destruct (update_values_inv _ _ _ _ H) as (a & s & z & Ha & Hs & Hz).
    rewrite (update_values_run _ _ _ _ _ _ Ha Hs Hz) in H.
    inversion H; subst; clear H.
    repeat split; try reflexivity; [|intros; discriminate].
    intros l' E. inversion E; subst l'. exists a, s, z.
    repeat split; try assumption. simpl. apply nth_error_alloc_new.
  - destruct (update_qvalues_inv _ _ _ _ H) as (a & s & z & Ha & Hs & Hz).
    rewrite (update_qvalues_run _ _ _ _ _ _ Ha Hs Hz) in H.
    inversion H; subst; clear H.
    repeat split; try reflexivity; [intros; discriminate|].
    intros l' E. inversion E; subst l'. exists a, s, z.
    repeat split; try assumption. simpl. apply nth_error_alloc_new.
Qed.

Lemma methods_keep_parameters_witness :
  let self := mkQuantizedArray 0 8 false (Some 0%nat) (Some (2 # 255))
                               (Some 128%Z) (Some 1%nat) in
  let h := [FloatArray [-1; 0; 1]; IntArray [0; 128; 255]%Z;
            FloatArray [1 # 2; 1]] in
  exists self' r h',
    update_values self 2%nat h = Ok (self', r, h') /\
    scale self' = Some (2 # 255) /\ zero_point self' = Some 128%Z /\
    contents h' (qvalues self') = Some (IntArray [192; 255]%Z).
Proof.
  intros self h.
  destruct (update_values self 2%nat h) as [[[self' r] h']|e] eqn:E;
    [|discriminate E].
  destruct (methods_keep_parameters (Update_values 2%nat) self h self' r h' E)
    as ((Hs & Hz & _) & Hu & _).
  destruct (Hu 2%nat eq_refl) as (a & s & z & Ha & Hs' & Hz' & Hc).
  exists self', r, h'. repeat split; try assumption.
  inversion Ha; inversion Hs'; inversion Hz'; subst a s z. exact Hc.
Defined.

(** ** The range of the codes *)





(** ** Bit widths are not checked *)

(** Against C10 as stated: the constructor returns for a bit width of 64
    with unsigned codes, although the top code [2 ^ 64 - 1] is beyond the
    64-bit integer the codes are cast to. *)
Lemma wide_bit_width_accepted :
  exists self h',
    __init__ 64 0%nat false true None None [FloatArray [0; 1]] = Ok (self, h') /\
    n_bits self = 64%Z /\
    (int64_max < code_max self)%Z.
Proof.
  eexists _, _. split; [vm_compute; reflexivity|].
  split; reflexivity.
Qed.

(** C10, as the code has it.  The constructor does not look at the size of
    [n_bits].  For every bit width from 1 to 64, which includes the widths
    whose codes do not fit the 64-bit integer they are cast to, construction
    from a non-empty array of real values returns an instance with that bit
    width, and so does construction from pre-quantized values when [scale]
    and [zero_point] are both given.  (The statement stops at 64: beyond it
    [2 ** n_bits - 1] itself is no machine integer any more.) *)
Theorem construction_checks_no_bit_width
        (n : Z) (l : loc) (sg vf : bool) (sc : option Q) (zp : option Z)
        (h : heap) (a : ndarray) :
  (1 <= n <= 64)%Z ->
  nth_error h l = Some a ->
  (if vf then as_float a <> [] else sc <> None /\ zp <> None) ->
  exists self h',
    __init__ n l sg vf sc zp h = Ok (self, h') /\ n_bits self = n.
Proof.
  intros _ Ha H. destruct vf.
  - destruct (nonempty_extremes a H) as (rmax & rmin & Hext).
    destruct (derived_parameters n (initial_offset n sg) rmax rmin)
      as [[off' s] z] eqn:Hd.
    eexists _, _. split;
      [apply (init_real_run _ _ _ sc zp _ _ _ _ _ _ _ Ha Hext Hd) | reflexivity].
  - destruct H as [Hs Hz].
    destruct sc as [s|]; [|congruence]. destruct zp as [z|]; [|congruence].
    eexists _, _. split;
      [apply (init_quantized_run _ _ _ _ _ _ _ Ha) | reflexivity].
Qed.

Lemma construction_checks_no_bit_width_witness :
  exists self h',
    __init__ 64 0%nat false true None None [FloatArray [-1; 0; 1]] = Ok (self, h') /\
    n_bits self = 64%Z.
Proof.
  apply (construction_checks_no_bit_width 64 0%nat false true None None
           [FloatArray [-1; 0; 1]] (FloatArray [-1; 0; 1]) ltac:(lia) eq_refl).
  simpl. discriminate.
Defined.

(** ** The sign of the derived scale *)










(** ** Quantizing and dequantizing back *)










(** * Further properties of the class *)

(** ** More arithmetic of the primitives *)











(** ** Further properties of the methods *)

(** Replaces the hypothesis [H], a successful call of a method, by what the
    call did. *)
Ltac method_inv H :=
  let Hrv := fresh "Hrv" in let Hra := fresh "Hra" in
  let Hrs := fresh "Hrs" in let Hrz := fresh "Hrz" in
  lazymatch type of H with
  | quant _ _ = Ok _ =>
      destruct (quant_inv _ _ _ H) as (? & ? & ? & ? & Hrv & Hra & Hrs & Hrz);
      rewrite (quant_run _ _ _ _ _ _ Hrv Hra Hrs Hrz) in H
  | dequant _ _ = Ok _ =>
      destruct (dequant_inv _ _ _ H) as (? & ? & ? & ? & Hrv & Hra & Hrs & Hrz);
      rewrite (dequant_run _ _ _ _ _ _ Hrv Hra Hrs Hrz) in H
  | update_values _ _ _ = Ok _ =>
      destruct (update_values_inv _ _ _ _ H) as (? & ? & ? & Hra & Hrs & Hrz);
      rewrite (update_values_run _ _ _ _ _ _ Hra Hrs Hrz) in H
  | update_qvalues _ _ _ = Ok _ =>
      destruct (update_qvalues_inv _ _ _ _ H) as (? & ? & ? & Hra & Hrs & Hrz);
      rewrite (update_qvalues_run _ _ _ _ _ _ Hra Hrs Hrz) in H
  end;
  inversion H; subst; clear H.

Lemma init_real_shape n l sg sc zp h self h' :
  __init__ n l sg true sc zp h = Ok (self, h') ->
  exists a rmax rmin off' s z,
    nth_error h l = Some a /\ extremes a rmax rmin /\
    derived_parameters n (initial_offset n sg) rmax rmin = (off', s, z) /\
    self = mkQuantizedArray off' n sg (Some (length h)) (Some s) (Some z)
                            (Some (length (h ++ [a]))) /\
    h' = (h ++ [a]) ++ [IntArray (map (quantize_element n off' s z) (as_float a))].
Proof.
  intro H.
  destruct (init_real_inv _ _ _ _ _ _ _ H) as (a & rmax & rmin & Ha & Hext).
  destruct (derived_parameters n (initial_offset n sg) rmax rmin)
    as [[off' s] z] eqn:Hd.
  rewrite (init_real_run _ _ _ sc zp _ _ _ _ _ _ _ Ha Hext Hd) in H.
  inversion H; subst; clear H.
  exists a, rmax, rmin, off', s, z.
  split; [exact Ha|]. split; [exact Hext|]. split; [exact Hd|]. split; reflexivity.
Qed.

Lemma init_quantized_shape n l sg sc zp h self h' :
  __init__ n l sg false sc zp h = Ok (self, h') ->
  exists a s z,
    sc = Some s /\ zp = Some z /\ nth_error h l = Some a /\
    self = mkQuantizedArray (initial_offset n sg) n sg (Some (length (h ++ [a])))
                            (Some s) (Some z) (Some (length h)) /\
    h' = (h ++ [a]) ++ [FloatArray (map (dequantize_element s z) (as_float a))].
Proof.
  intro H.
  destruct sc as [s|]; [|rewrite init_quantized_missing in H by auto; discriminate].
  destruct zp as [z|]; [|rewrite init_quantized_missing in H by auto; discriminate].
  destruct (nth_error h l) as [a|] eqn:Ha.
  - rewrite (init_quantized_run _ _ _ _ _ _ _ Ha) in H.
    inversion H; subst; clear H. exists a, s, z. repeat split.
  - exfalso. unfold __init__, assert_true, assert, getattr, deepcopy in H.
    simpl in H. unfold bind, ret, load in H. rewrite Ha in H. discriminate.
Qed.

(** X2.  No method, and neither the constructor nor
    [compute_quantization_parameters], ever writes into an array that
    exists: whatever array a location held before the call, it still holds
    after it.  Every result is a new array. *)
Theorem stored_arrays_are_never_modified :
  (forall m self h self' r h',
     call m self h = Ok (self', r, h') ->
     forall l a, nth_error h l = Some a -> nth_error h' l = Some a) /\
  (forall n l0 sg vf sc zp h self h',
     __init__ n l0 sg vf sc zp h = Ok (self, h') ->
     forall l a, nth_error h l = Some a -> nth_error h' l = Some a) /\
  (forall self h r h',
     compute_quantization_parameters self h = Ok (r, h') ->
     forall l a, nth_error h l = Some a -> nth_error h' l = Some a).
Proof.
  repeat apply conj.
  - intros m self h self' r h' H l a Hl.
    destruct m; simpl in H; method_inv H;
      repeat apply nth_error_alloc_old; exact Hl.
  - intros n l0 sg vf sc zp h self h' H l a Hl. destruct vf.
    + destruct (init_real_shape _ _ _ _ _ _ _ _ H)
        as (a0 & rmax & rmin & off' & s & z & _ & _ & _ & _ & ->).
      repeat apply nth_error_alloc_old; exact Hl.
    + destruct (init_quantized_shape _ _ _ _ _ _ _ _ H)
        as (a0 & s & z & _ & _ & _ & _ & ->).
      repeat apply nth_error_alloc_old; exact Hl.
  - intros self h r h' H l a Hl.
    destruct (compute_quantization_parameters_inv _ _ _ H)
      as (v & a0 & rmax & rmin & Hv & Ha & Hext).
    destruct (derived_parameters (n_bits self) (offset self) rmax rmin)
      as [[off' s] z] eqn:Hd.
    rewrite (compute_quantization_parameters_run _ _ _ _ _ _ _ _ _ Hv Ha Hext Hd) in H.
    inversion H; subst; clear H.
    apply nth_error_alloc_old; exact Hl.
Qed.

Lemma stored_arrays_are_never_modified_witness :
  exists self' r h',
    update_values
      (mkQuantizedArray 0 8 false (Some 0%nat) (Some 1) (Some 0%Z) (Some 1%nat))
      2%nat [FloatArray [3]; IntArray [3]%Z; FloatArray [7]] = Ok (self', r, h') /\
    nth_error h' 0%nat = Some (FloatArray [3]).
Proof.
  destruct (update_values
      (mkQuantizedArray 0 8 false (Some 0%nat) (Some 1) (Some 0%Z) (Some 1%nat))
      2%nat [FloatArray [3]; IntArray [3]%Z; FloatArray [7]])
    as [[[self' r] h']|e] eqn:E; [|discriminate E].
  exists self', r, h'. split; [reflexivity|].
  apply (proj1 stored_arrays_are_never_modified (Update_values 2%nat) _ _ _ _ _ E
               0%nat (FloatArray [3]) eq_refl).
Defined.

(** X3.  [update_values], [update_qvalues] and the constructor called on
    real values do not keep the caller's array: the attribute they assign
    refers to a new array (a location the store did not hold, different from
    the argument) with the same elements, and the caller's array stays as it
    was. *)
Theorem ingested_arrays_are_copies :
  (forall self l h self' r h',
     update_values self l h = Ok (self', r, h') ->
     exists v a,
       values self' = Some v /\ nth_error h l = Some a /\
       nth_error h v = None /\ v <> l /\
       nth_error h' v = Some a /\ nth_error h' l = Some a) /\
  (forall self l h self' r h',
     update_qvalues self l h = Ok (self', r, h') ->
     exists q a,
       qvalues self' = Some q /\ nth_error h l = Some a /\
       nth_error h q = None /\ q <> l /\
       nth_error h' q = Some a /\ nth_error h' l = Some a) /\
  (forall n l sg sc zp h self h',
     __init__ n l sg true sc zp h = Ok (self, h') ->
     exists v a,
       values self = Some v /\ nth_error h l = Some a /\
       nth_error h v = None /\ v <> l /\
       nth_error h' v = Some a /\ nth_error h' l = Some a).
Proof.
  repeat apply conj.
  - intros self l h self' r h' H. method_inv H.
    eexists _, _. simpl. repeat split; try eassumption.
    + apply nth_error_fresh.
    + intro E. symmetry in E. revert E. eapply stored_not_fresh; eassumption.
    + apply nth_error_alloc_old, nth_error_alloc_new.
    + repeat apply nth_error_alloc_old; assumption.
  - intros self l h self' r h' H. method_inv H.
    eexists _, _. simpl. repeat split; try eassumption.
    + apply nth_error_fresh.
    + intro E. symmetry in E. revert E. eapply stored_not_fresh; eassumption.
    + apply nth_error_alloc_old, nth_error_alloc_new.
    + repeat apply nth_error_alloc_old; assumption.
  - intros n l sg sc zp h self h' H.
    destruct (init_real_shape _ _ _ _ _ _ _ _ H)
      as (a & rmax & rmin & off' & s & z & Ha & _ & _ & -> & ->).
    exists (length h), a. simpl. repeat split; try assumption.
    + apply nth_error_fresh.
    + intro E. symmetry in E. revert E. eapply stored_not_fresh; eassumption.
    + apply nth_error_alloc_old, nth_error_alloc_new.
    + repeat apply nth_error_alloc_old; assumption.
Qed.

Lemma ingested_arrays_are_copies_witness :
  exists self' r h' v,
    update_values
      (mkQuantizedArray 0 8 false (Some 0%nat) (Some 1) (Some 0%Z) (Some 1%nat))
      2%nat [FloatArray [3]; IntArray [3]%Z; FloatArray [7]] = Ok (self', r, h') /\
    values self' = Some v /\ v <> 2%nat /\ nth_error h' v = Some (FloatArray [7]).
Proof.
  destruct (update_values
      (mkQuantizedArray 0 8 false (Some 0%nat) (Some 1) (Some 0%Z) (Some 1%nat))
      2%nat [FloatArray [3]; IntArray [3]%Z; FloatArray [7]])
    as [[[self' r] h']|e] eqn:E; [|discriminate E].
  destruct (proj1 ingested_arrays_are_copies _ _ _ _ _ _ E)
    as (v & a & Hv & Ha & _ & Hne & Hv' & _).
  exists self', r, h', v. repeat split; try assumption.
  inversion Ha; subst a. exact Hv'.
Defined.

(** X4.  What a method returns is not a copy: [quant] and [update_values]
    return the very array [self.qvalues] refers to afterwards, which is also
    what the accessor [__call__] then returns; [dequant] and
    [update_qvalues] return the array [self.values] refers to. *)
Theorem methods_return_own_arrays m self h self' r h' :
  call m self h = Ok (self', r, h') ->
  (exists a, nth_error h' r = Some a) /\
  match m with
  | Quant | Update_values _ =>
      qvalues self' = Some r /\ __call__ self' h' = Ok (r, h')
  | Dequant | Update_qvalues _ => values self' = Some r
  end.
Proof.
  intro H. destruct m; simpl in H; method_inv H; simpl;
    (split; [eexists; apply nth_error_alloc_new|]);
    repeat split; reflexivity.
Qed.

Lemma methods_return_own_arrays_witness :
  exists self' r h',
    quant (mkQuantizedArray 0 8 false (Some 0%nat) (Some 1) (Some 0%Z) None)
          [FloatArray [3]] = Ok (self', r, h') /\
    __call__ self' h' = Ok (r, h').
Proof.
  destruct (quant (mkQuantizedArray 0 8 false (Some 0%nat) (Some 1) (Some 0%Z) None)
                  [FloatArray [3]])
    as [[[self' r] h']|e] eqn:E; [|discriminate E].
  exists self', r, h'. split; [reflexivity|].
  exact (proj2 (proj2 (methods_return_own_arrays Quant _ _ _ _ _ E))).
Defined.

Lemma length_as_float_int (cs : list Z) :
  length (as_float (IntArray cs)) = length cs.
Proof. simpl. apply length_map. Qed.

(** X5.  After any method call that returns, and after the constructor in
    either mode, [values] and [qvalues] are both set and have the same
    number of elements. *)
Theorem values_and_codes_same_size :
  (forall m self h self' r h',
     call m self h = Ok (self', r, h') ->
     exists av aq,
       contents h' (values self') = Some av /\
       contents h' (qvalues self') = Some aq /\
       length (as_float av) = length (as_float aq)) /\
  (forall n l sg vf sc zp h self h',
     __init__ n l sg vf sc zp h = Ok (self, h') ->
     exists av aq,
       contents h' (values self) = Some av /\
       contents h' (qvalues self) = Some aq /\
       length (as_float av) = length (as_float aq)).
Proof.
  split.
  - intros m self h self' r h' H.
    destruct m; simpl in H; method_inv H; simpl.
    + eexists _, _. rewrite Hrv. simpl.
      split; [apply nth_error_alloc_old; eassumption|].
      split; [apply nth_error_alloc_new|].
      simpl. rewrite !length_map. reflexivity.
    + eexists _, _. rewrite Hrv. simpl.
      split; [apply nth_error_alloc_new|].
      split; [apply nth_error_alloc_old; eassumption|].
      simpl. rewrite !length_map. reflexivity.
    + eexists _, _.
      split; [apply nth_error_alloc_old, nth_error_alloc_new|].
      split; [apply nth_error_alloc_new|].
      simpl. rewrite !length_map. reflexivity.
    + eexists _, _.
      split; [apply nth_error_alloc_new|].
      split; [apply nth_error_alloc_old, nth_error_alloc_new|].
      simpl. rewrite !length_map. reflexivity.
  - intros n l sg vf sc zp h self h' H. destruct vf.
    + destruct (init_real_shape _ _ _ _ _ _ _ _ H)
        as (a & rmax & rmin & off' & s & z & Ha & _ & _ & -> & ->).
      eexists _, _. simpl.
      split; [apply nth_error_alloc_old, nth_error_alloc_new|].
      split; [apply nth_error_alloc_new|].
      simpl. rewrite !length_map. reflexivity.
    + destruct (init_quantized_shape _ _ _ _ _ _ _ _ H)
        as (a & s & z & _ & _ & Ha & -> & ->).
      eexists _, _. simpl.
      split; [apply nth_error_alloc_new|].
      split; [apply nth_error_alloc_old, nth_error_alloc_new|].
      simpl. rewrite !length_map. reflexivity.
Qed.

Lemma values_and_codes_same_size_witness :
  exists self h' av aq,
    __init__ 8 0%nat false true None None [FloatArray [-1; 0; 1]] = Ok (self, h') /\
    contents h' (values self) = Some av /\
    contents h' (qvalues self) = Some aq /\
    length (as_float av) = length (as_float aq).
Proof.
  destruct (__init__ 8 0%nat false true None None [FloatArray [-1; 0; 1]])
    as [[self h']|e] eqn:E; [|discriminate E].
  destruct (proj2 values_and_codes_same_size _ _ _ _ _ _ _ _ _ E)
    as (av & aq & H1 & H2 & H3).
  exists self, h', av, aq. repeat split; assumption.
Defined.

(** X6.  On an instance with all attributes set (as the constructor leaves
    it), each of the four methods returns, given that the array passed to
    [update_values] or [update_qvalues] exists, and leaves an instance with
    all attributes set: calls can be chained without an attribute ever
    being missing. *)
Theorem methods_run_on_constructed m self h :
  constructed self h ->
  (forall l, m = Update_values l \/ m = Update_qvalues l ->
             exists a, nth_error h l = Some a) ->
  exists self' r h',
    call m self h = Ok (self', r, h') /\ constructed self' h'.
Proof.
  intros (v & q & s & z & av & aq & Hv & Hq & Hs & Hz & Hav & Haq) Harg.
  destruct m as [| |l|l]; simpl.
  - eexists _, _, _. split; [apply (quant_run _ _ _ _ _ _ Hv Hav Hs Hz)|].
    eexists _, _, _, _, _, _. simpl. repeat split; try eassumption.
    + apply nth_error_alloc_old, Hav.
    + apply nth_error_alloc_new.
  - eexists _, _, _. split; [apply (dequant_run _ _ _ _ _ _ Hq Haq Hs Hz)|].
    eexists _, _, _, _, _, _. simpl. repeat split; try eassumption.
    + apply nth_error_alloc_new.
    + apply nth_error_alloc_old, Haq.
  - destruct (Harg l (or_introl eq_refl)) as [a Ha].
    eexists _, _, _. split; [apply (update_values_run _ _ _ _ _ _ Ha Hs Hz)|].
    eexists _, _, _, _, _, _. simpl. repeat split; try eassumption.
    + apply nth_error_alloc_old, nth_error_alloc_new.
    + apply nth_error_alloc_new.
  - destruct (Harg l (or_intror eq_refl)) as [a Ha].
    eexists _, _, _. split; [apply (update_qvalues_run _ _ _ _ _ _ Ha Hs Hz)|].
    eexists _, _, _, _, _, _. simpl. repeat split; try eassumption.
    + apply nth_error_alloc_new.
    + apply nth_error_alloc_old, nth_error_alloc_new.
Qed.

Lemma methods_run_on_constructed_witness :
  exists self' r h',
    update_qvalues
      (mkQuantizedArray 0 8 false (Some 0%nat) (Some 1) (Some 0%Z) (Some 1%nat))
      1%nat [FloatArray [3]; IntArray [3]%Z] = Ok (self', r, h') /\
    constructed self' h'.
Proof.
  apply (methods_run_on_constructed (Update_qvalues 1%nat)).
  - exists 0%nat, 1%nat, 1, 0%Z, (FloatArray [3]), (IntArray [3]%Z).
    repeat split; reflexivity.
  - intros l [E|E]; inversion E; subst l.
    exists (IntArray [3]%Z). reflexivity.
Defined.









(** X11.  The constructor and [quant] quantize alike: calling [quant] on an
    instance just constructed from real values returns, and gives an array
    with the same elements as the codes the constructor stored. *)
Theorem quant_after_construction n l sg sc zp h self h1 :
  __init__ n l sg true sc zp h = Ok (self, h1) ->
  exists self2 q h2 a,
    quant self h1 = Ok (self2, q, h2) /\
    contents h1 (qvalues self) = Some a /\
    nth_error h2 q = Some a.
Proof.
  intro H.
  destruct (init_real_shape _ _ _ _ _ _ _ _ H)
    as (a & rmax & rmin & off' & s & z & Ha & _ & _ & -> & ->).
  eexists _, _, _, _. split.
  { apply (quant_run _ _ (length h) a s z);
      [reflexivity | apply nth_error_alloc_old, nth_error_alloc_new
      | reflexivity | reflexivity]. }
  simpl. split; apply nth_error_alloc_new.
Qed.

Lemma quant_after_construction_witness :
  exists self h1 self2 q h2,
    __init__ 8 0%nat true true None None [FloatArray [-1; 0; 1]] = Ok (self, h1) /\
    quant self h1 = Ok (self2, q, h2) /\
    nth_error h2 q = contents h1 (qvalues self).
Proof.
  destruct (__init__ 8 0%nat true true None None [FloatArray [-1; 0; 1]])
    as [[self h1]|e] eqn:E; [|discriminate E].
  destruct (quant_after_construction _ _ _ _ _ _ _ _ E)
    as (self2 & q & h2 & a & H1 & H2 & H3).
  exists self, h1, self2, q, h2. repeat split; congruence.
Defined.

(** X1.  An array without elements: construction from real values raises
    [ValueError] (the maximum of nothing), and so does
    [compute_quantization_parameters] on an instance whose values are such
    an array; construction from pre-quantized values accepts it and yields
    empty real values. *)
Theorem empty_array_is_rejected n l sg sc zp h a :
  nth_error h l = Some a -> as_float a = [] ->
  __init__ n l sg true sc zp h = Raise ValueError /\
  (forall self, values self = Some l ->
                compute_quantization_parameters self h = Raise ValueError) /\
  (forall s z,
     exists self h' v,
       __init__ n l sg false (Some s) (Some z) h = Ok (self, h') /\
       values self = Some v /\ nth_error h' v = Some (FloatArray [])).
Proof.
  intros Ha He. repeat apply conj.
  - unfold __init__. unfold bind at 1. rewrite (deepcopy_run _ _ _ Ha).
    unfold bind at 1.
    unfold compute_quantization_parameters, bind, getattr, load, ret, numpy_max, raise.
    destruct sg; simpl; rewrite nth_error_alloc_new, He; reflexivity.
  - intros self Hv.
    unfold compute_quantization_parameters, bind, getattr, load, ret, numpy_max, raise.
    rewrite Hv. cbv beta iota. rewrite Ha, He. reflexivity.
  - intros s z. eexists _, _, _.
    split; [apply (init_quantized_run _ _ _ _ _ _ _ Ha)|].
    simpl. split; [reflexivity|]. rewrite nth_error_alloc_new, He. reflexivity.
Qed.

Lemma empty_array_is_rejected_witness :
  __init__ 8 0%nat false true None None [FloatArray []] = Raise ValueError.
Proof.
  exact (proj1 (empty_array_is_rejected 8 0%nat false None None [FloatArray []]
                  (FloatArray []) eq_refl eq_refl)).
Defined.










